(** * nbdev_example.core: the Collective-risk dilemma model builder

    A shallow embedding of [src/nbdev_example/core.py] and the properties of
    its only function, [generate_crd].

    The Python function builds two dictionaries, stores one inside the other
    and fills the inner one from [config.get(key, default)].  Dictionaries are
    mutable objects with an identity, and the default value of [config] is one
    dictionary created when the [def] statement runs, so the embedding keeps
    an explicit object store: values are immediate data or references,
    dictionaries live in the store, and the function is a store transformer
    that may raise. *)

From Stdlib Require Import ZArith PrimFloat.
From stdpp Require Import gmap strings list fin_maps.

Set Warnings "-inexact-float".

Local Open Scope string_scope.

(** ** Values and objects *)

Definition loc := positive.

(** Python values.  Numbers, strings, booleans and [None] are immutable and
    are carried as data; mutable containers are carried by reference. *)
Inductive val : Type :=
  | VNone
  | VBool (b : bool)
  | VInt (z : Z)
  | VFloat (f : float)
  | VStr (s : string)
  | VRef (l : loc).

(** Mutable objects of the store. *)
Inductive obj : Type :=
  | ODict (d : gmap string val)
  | OList (xs : list val).

(** The exceptions the operations used by [generate_crd] can raise; the
    payload names the type of the offending receiver. *)
Inductive exn : Type :=
  | AttributeError (receiver attr : string)
  | TypeError (receiver : string)
  | KeyError (key : string).

Inductive outcome (A : Type) : Type :=
  | Ret (a : A)
  | Raise (e : exn).
Arguments Ret {A} a.
Arguments Raise {A} e.

(** ** The interpreter monad: a store that survives exceptions *)

Definition M (A : Type) : Type := gmap loc obj → gmap loc obj * outcome A.

Definition ret {A} (a : A) : M A := λ h, (h, Ret a).

Definition raise {A} (e : exn) : M A := λ h, (h, Raise e).

Definition bind {A B} (c : M A) (k : A → M B) : M B :=
  λ h, match c h with
       | (h', Ret a) => k a h'
       | (h', Raise e) => (h', Raise e)
       end.

Notation "'let!' x ':=' c 'in' k" := (bind c (λ x, k))
  (at level 10, x name, c at level 100, k at level 200, only parsing).
Notation "'do!' c 'in' k" := (bind c (λ _, k))
  (at level 10, c at level 100, k at level 200, only parsing).

(** ** Primitive operations *)

(** The name Python prints for the type of a value, given the store. *)
Definition type_name (h : gmap loc obj) (v : val) : string :=
  match v with
  | VNone => "NoneType"
  | VBool _ => "bool"
  | VInt _ => "int"
  | VFloat _ => "float"
  | VStr _ => "str"
  | VRef l => match h !! l with
              | Some (ODict _) => "dict"
              | Some (OList _) => "list"
              | None => "object"
              end
  end.

(** Allocation of a new object at an unused address. *)
Definition alloc (o : obj) : M val :=
  λ h, let l := fresh (dom h) in (<[l := o]> h, Ret (VRef l)).

(** The display [{}]. *)
Definition new_dict : M val := alloc (ODict ∅).

(** [target[key] = v] for a string key. *)
Definition setitem (target : val) (key : string) (v : val) : M unit :=
  λ h, match target with
       | VRef l =>
           match h !! l with
           | Some (ODict d) => (<[l := ODict (<[key := v]> d)]> h, Ret tt)
           | _ => raise (TypeError (type_name h target)) h
           end
       | _ => raise (TypeError (type_name h target)) h
       end.

(** [target[key]] for a string key. *)
Definition getitem (target : val) (key : string) : M val :=
  λ h, match target with
       | VRef l =>
           match h !! l with
           | Some (ODict d) =>
               match d !! key with
               | Some v => ret v h
               | None => raise (KeyError key) h
               end
           | _ => raise (TypeError (type_name h target)) h
           end
       | _ => raise (TypeError (type_name h target)) h
       end.

(** [receiver.get(key, dflt)]: of the objects modelled only dictionaries have
    a [get] attribute; [dict.get] reads and never writes. *)
Definition call_get (receiver : val) (key : string) (dflt : val) : M val :=
  λ h, match receiver with
       | VRef l =>
           match h !! l with
           | Some (ODict d) => ret (default dflt (d !! key)) h
           | _ => raise (AttributeError (type_name h receiver) "get") h
           end
       | _ => raise (AttributeError (type_name h receiver) "get") h
       end.

(** ** The module *)

(** A function object: what [def generate_crd(config:dict={})] leaves behind
    is the code and the tuple of default values, evaluated once. *)
Record func : Type := { defaults0 : val }.

(** Executing the [def] statement evaluates the default [{}] once. *)
Definition def_generate_crd : M func :=
  let! d := new_dict in
  ret {| defaults0 := d |}.

(** A call of [generate_crd]; [arg] is [None] when the caller passes no
    argument, in which case [config] is bound to the stored default. *)
Definition generate_crd (f : func) (arg : option val) : M val :=
  let config := default (defaults0 f) arg in
  let! game := new_dict in
  let! p := new_dict in
  do! setitem game "parameters" p in
  let! v := call_get config "n" (VInt 2) in
  let! t := getitem game "parameters" in
  do! setitem t "n" v in
  let! v := call_get config "b" (VInt 1) in
  let! t := getitem game "parameters" in
  do! setitem t "b" v in
  let! v := call_get config "d" (VInt (-10)) in
  let! t := getitem game "parameters" in
  do! setitem t "d" v in
  let! v := call_get config "pr" (VFloat 0.5) in
  let! t := getitem game "parameters" in
  do! setitem t "pr" v in
  ret game.

(** ** Reading results out of the store *)

(** The dictionary a value refers to. *)
Definition as_dict (h : gmap loc obj) (v : val) : option (gmap string val) :=
  match v with
  | VRef l => match h !! l with
              | Some (ODict d) => Some d
              | _ => None
              end
  | _ => None
  end.

(** A model read as a nested mapping: each key of the outer dictionary with
    the dictionary stored under it. *)
Definition read_model (h : gmap loc obj) (g : val)
  : option (gmap string (gmap string val)) :=
  match as_dict h g with
  | Some d =>
      if decide (map_Forall (λ (_ : string) v, is_Some (as_dict h v)) d)
      then Some (omap (as_dict h) d)
      else None
  | None => None
  end.

(** What a run shows to the caller: the model it returned, read from the
    final store; nothing when the call raised. *)
Definition model_of (x : gmap loc obj * outcome val)
  : option (gmap string (gmap string val)) :=
  match x with
  | (h, Ret g) => read_model h g
  | (_, Raise _) => None
  end.

(** The call expression [generate_crd({...})]: the dictionary display builds
    a new dictionary, which is then passed. *)
Definition call_with_display (f : func) (p : gmap string val) : M val :=
  let! c := alloc (ODict p) in
  generate_crd f (Some c).

(** The default dictionary of the function object is still the empty
    dictionary the [def] statement created. *)
Definition intact (h : gmap loc obj) (f : func) : Prop :=
  as_dict h (defaults0 f) = Some ∅.

(** A caller running one call after another, exceptions caught. *)
Fixpoint call_sequence (f : func) (args : list (option val))
    (h : gmap loc obj) : gmap loc obj :=
  match args with
  | [] => h
  | a :: rest => call_sequence f rest (generate_crd f a h).1
  end.

(** A caller making the same call twice and keeping both results. *)
Definition twice (f : func) (arg : option val) : M (val * val) :=
  let! a := generate_crd f arg in
  let! b := generate_crd f arg in
  ret (a, b).

(** Objects reachable from a value by following references. *)
Inductive reach (h : gmap loc obj) : val → loc → Prop :=
  | reach_here l : reach h (VRef l) l
  | reach_dict l d k v l' :
      h !! l = Some (ODict d) → d !! k = Some v → reach h v l' →
      reach h (VRef l) l'
  | reach_list l xs i v l' :
      h !! l = Some (OList xs) → xs !! i = Some v → reach h v l' →
      reach h (VRef l) l'.

(** Two values share state when some object is reachable from both. *)
Definition shares (h : gmap loc obj) (a b : val) : Prop :=
  ∃ l, reach h a l ∧ reach h b l.

(** Values that carry no reference. *)
Definition immutable (v : val) : bool :=
  match v with
  | VRef _ => false
  | _ => true
  end.

(** The caller's statement [m['parameters'][key] = v] on a model [m]. *)
Definition assign_parameter (m : val) (key : string) (v : val) : M unit :=
  let! t := getitem m "parameters" in
  setitem t key v.

(** ** The shape of the store during a call *)

(** Where the two dictionaries of a call are allocated, and the store once
    the inner one holds [P]. *)
Definition game_loc (h : gmap loc obj) : loc := fresh (dom h).

Definition params_loc (h : gmap loc obj) : loc :=
  fresh (dom (<[game_loc h := ODict ∅]> h)).

Definition store_with (h : gmap loc obj) (P : gmap string val) : gmap loc obj :=
  <[params_loc h := ODict P]>
    (<[game_loc h := ODict {["parameters" := VRef (params_loc h)]}]> h).

(** The inner dictionary as the four assignments build it from [p]. *)
Definition filled (p : gmap string val) : gmap string val :=
  <["pr" := default (VFloat 0.5) (p !! "pr")]>
    (<["d" := default (VInt (-10)) (p !! "d")]>
       (<["b" := default (VInt 1) (p !! "b")]>
          (<["n" := default (VInt 2) (p !! "n")]> ∅))).

(** ** Running the primitives *)

Section Primitives.
Implicit Types (h : gmap loc obj) (l : loc) (d : gmap string val).

Lemma bind_Ret {A B} (c : M A) (k : A → M B) h h' a :
  c h = (h', Ret a) → bind c k h = k a h'.
Proof. intros E. unfold bind. by rewrite E. Qed.

Lemma bind_Raise {A B} (c : M A) (k : A → M B) h h' e :
  c h = (h', Raise e) → bind c k h = (h', Raise e).
Proof. intros E. unfold bind. by rewrite E. Qed.

Lemma fresh_not_in h : h !! fresh (dom h) = None.
Proof. apply not_elem_of_dom, is_fresh. Qed.

Lemma setitem_dict h l d k v :
  h !! l = Some (ODict d) →
  setitem (VRef l) k v h = (<[l := ODict (<[k := v]> d)]> h, Ret tt).
Proof. intros E. unfold setitem. by rewrite E. Qed.

Lemma getitem_dict h l d k v :
  h !! l = Some (ODict d) → d !! k = Some v →
  getitem (VRef l) k h = (h, Ret v).
Proof. intros E Ek. unfold getitem. by rewrite E, Ek. Qed.

Lemma call_get_dict h l d k dflt :
  h !! l = Some (ODict d) →
  call_get (VRef l) k dflt h = (h, Ret (default dflt (d !! k))).
Proof. intros E. unfold call_get. by rewrite E. Qed.

(** [get] never writes, whatever its receiver. *)
Lemma call_get_store receiver k dflt h :
  (call_get receiver k dflt h).1 = h.
Proof. unfold call_get. by repeat case_match. Qed.

(** A receiver that is no dictionary has no [get]. *)
Lemma call_get_no_dict receiver k dflt h :
  as_dict h receiver = None →
  call_get receiver k dflt h
  = (h, Raise (AttributeError (type_name h receiver) "get")).
Proof. unfold call_get, as_dict. by repeat case_match. Qed.

(** One line [game['parameters'][key] = config.get(key, dflt)], followed
    by the rest [rest] of the body. *)
Lemma assign_line config key dflt lg lp d (rest : M val) h :
  h !! lg = Some (ODict {["parameters" := VRef lp]}) →
  h !! lp = Some (ODict d) →
  (let! v := call_get config key dflt in
   let! t := getitem (VRef lg) "parameters" in
   do! setitem t key v in
   rest) h
  = match call_get config key dflt h with
    | (_, Ret v) => rest (<[lp := ODict (<[key := v]> d)]> h)
    | (_, Raise e) => (h, Raise e)
    end.
Proof.
  intros Eg Ep.
  pose proof (call_get_store config key dflt h) as Hs.
  unfold bind at 1. destruct (call_get config key dflt h) as [h' [v|e]];
    simpl in Hs; subst h'; [|done].
  erewrite bind_Ret by (eapply getitem_dict; [exact Eg|done]).
  erewrite bind_Ret by (eapply setitem_dict; exact Ep).
  done.
Qed.
End Primitives.

(** ** The body of [generate_crd], line by line *)

Section Body.
Implicit Types (h : gmap loc obj) (l : loc) (p P : gmap string val).

Lemma game_loc_fresh h : h !! game_loc h = None.
Proof. apply fresh_not_in. Qed.

Lemma params_loc_fresh h : h !! params_loc h = None.
Proof.
  pose proof (fresh_not_in (<[game_loc h := ODict ∅]> h)) as E.
  apply lookup_insert_None in E as [E _]. exact E.
Qed.

Lemma params_loc_ne h : game_loc h ≠ params_loc h.
Proof.
  pose proof (fresh_not_in (<[game_loc h := ODict ∅]> h)) as E.
  apply lookup_insert_None in E as [_ E]. exact E.
Qed.

Lemma store_with_game h P :
  store_with h P !! game_loc h
  = Some (ODict {["parameters" := VRef (params_loc h)]}).
Proof.
  unfold store_with.
  rewrite lookup_insert_ne by (apply not_eq_sym, params_loc_ne).
  apply lookup_insert_eq.
Qed.

Lemma store_with_params h P : store_with h P !! params_loc h = Some (ODict P).
Proof. apply lookup_insert_eq. Qed.

Lemma store_with_old h P l o : h !! l = Some o → store_with h P !! l = Some o.
Proof.
  intros E. unfold store_with.
  rewrite !lookup_insert_ne; [done| |].
  - intros <-. by rewrite game_loc_fresh in E.
  - intros <-. by rewrite params_loc_fresh in E.
Qed.

Lemma store_with_update h P Q :
  <[params_loc h := ODict Q]> (store_with h P) = store_with h Q.
Proof. apply insert_insert_eq. Qed.

Lemma store_with_size h P : size (store_with h P) = S (S (size h)).
Proof.
  unfold store_with.
  rewrite map_size_insert_None.
  - by rewrite map_size_insert_None by apply game_loc_fresh.
  - rewrite lookup_insert_ne by apply params_loc_ne. apply params_loc_fresh.
Qed.

(** The three statements before the assignments. *)
Lemma prologue (rest : val → M val) h :
  (let! game := new_dict in
   let! q := new_dict in
   do! setitem game "parameters" q in
   rest game) h
  = rest (VRef (game_loc h)) (store_with h ∅).
Proof.
  erewrite bind_Ret by reflexivity.
  erewrite bind_Ret by reflexivity.
  erewrite bind_Ret.
  2:{ apply setitem_dict.
      rewrite lookup_insert_ne by (apply not_eq_sym, params_loc_ne).
      apply lookup_insert_eq. }
  f_equal. unfold store_with. fold (game_loc h). fold (params_loc h).
  rewrite (insert_insert_ne _ (game_loc h) (params_loc h))
    by apply params_loc_ne.
  by rewrite insert_insert_eq.
Qed.

(** One assignment, run in a store of the shape the prologue leaves. *)
Lemma assign_on_store config key dflt (rest : M val) h P :
  (let! v := call_get config key dflt in
   let! t := getitem (VRef (game_loc h)) "parameters" in
   do! setitem t key v in
   rest) (store_with h P)
  = match call_get config key dflt (store_with h P) with
    | (_, Ret v) => rest (store_with h (<[key := v]> P))
    | (_, Raise e) => (store_with h P, Raise e)
    end.
Proof.
  erewrite assign_line by (apply store_with_game || apply store_with_params).
  destruct (call_get _ _ _ _) as [? [v|e]]; [|done].
  by rewrite store_with_update.
Qed.


(** Whatever the argument, the call leaves the store it found, extended by
    its two dictionaries. *)
Lemma generate_crd_store f arg h :
  ∃ P, (generate_crd f arg h).1 = store_with h P.
Proof.
  unfold generate_crd. cbv zeta. rewrite prologue.
  repeat (rewrite assign_on_store;
          destruct (call_get _ _ _ _) as [? [?|?]]; [|by eexists]).
  by eexists.
Qed.

(** The call on a dictionary [p], passed or taken from the defaults. *)
Lemma generate_crd_on_dict f arg h c p :
  default (defaults0 f) arg = VRef c → h !! c = Some (ODict p) →
  generate_crd f arg h = (store_with h (filled p), Ret (VRef (game_loc h))).
Proof.
  intros Hcfg Hc. unfold generate_crd. cbv zeta. rewrite Hcfg, prologue.
  repeat (rewrite assign_on_store;
          erewrite call_get_dict by (apply store_with_old, Hc)).
  done.
Qed.

(** The call on anything that is not a dictionary stops at the first
    [config.get]. *)
Lemma generate_crd_no_dict f arg h :
  as_dict (store_with h ∅) (default (defaults0 f) arg) = None →
  generate_crd f arg h
  = (store_with h ∅,
     Raise (AttributeError
              (type_name (store_with h ∅) (default (defaults0 f) arg)) "get")).
Proof.
  intros Hc. unfold generate_crd. cbv zeta. rewrite prologue.
  rewrite assign_on_store. by rewrite call_get_no_dict.
Qed.

(** Reading the returned model back from the final store. *)
Lemma read_model_store h P :
  read_model (store_with h P) (VRef (game_loc h))
  = Some {["parameters" := P]}.
Proof.
  unfold read_model, as_dict at 1. rewrite store_with_game.
  rewrite decide_True.
  - rewrite omap_singleton_Some with (y := P); [done|].
    unfold as_dict. by rewrite store_with_params.
  - apply map_Forall_singleton. unfold as_dict.
    by rewrite store_with_params.
Qed.

Lemma filled_lookup p k dflt :
  (k, dflt) ∈ [("n", VInt 2); ("b", VInt 1); ("d", VInt (-10));
               ("pr", VFloat 0.5)] →
  filled p !! k = Some (default dflt (p !! k)).
Proof.
  intros Hk. unfold filled.
  repeat (apply elem_of_cons in Hk as [[= -> ->]|Hk];
          [by simplify_map_eq|]).
  by apply elem_of_nil in Hk.
Qed.

Lemma filled_dom p : dom (filled p) = {["n"; "b"; "d"; "pr"]}.
Proof. unfold filled. rewrite !dom_insert_L. set_solver. Qed.
End Body.

(** ** Calls as the caller sees them *)

Section Calls.
Implicit Types (h : gmap loc obj) (f : func) (p : gmap string val).

Lemma model_of_on_dict f arg h c p :
  default (defaults0 f) arg = VRef c → h !! c = Some (ODict p) →
  model_of (generate_crd f arg h) = Some {["parameters" := filled p]}.
Proof.
  intros Hcfg Hc. rewrite (generate_crd_on_dict f arg h c p Hcfg Hc).
  apply read_model_store.
Qed.

Lemma call_with_display_run f p h :
  call_with_display f p h
  = generate_crd f (Some (VRef (fresh (dom h))))
      (<[fresh (dom h) := ODict p]> h).
Proof. unfold call_with_display. by erewrite bind_Ret by reflexivity. Qed.

Lemma model_of_display f p h :
  model_of (call_with_display f p h) = Some {["parameters" := filled p]}.
Proof.
  rewrite call_with_display_run.
  apply model_of_on_dict with (c := fresh (dom h)); [done|].
  apply lookup_insert_eq.
Qed.

Lemma intact_inv h f :
  intact h f → ∃ l, defaults0 f = VRef l ∧ h !! l = Some (ODict ∅).
Proof.
  unfold intact, as_dict. intros E.
  destruct (defaults0 f) as [| | | | |l]; try done.
  exists l. split; [done|].
  destruct (h !! l) as [[d|xs]|]; by simplify_eq.
Qed.

Lemma def_generate_crd_run h :
  def_generate_crd h
  = (<[fresh (dom h) := ODict ∅]> h, Ret {| defaults0 := VRef (fresh (dom h)) |}).
Proof. unfold def_generate_crd. by erewrite bind_Ret by reflexivity. Qed.

(** The [def] statement leaves a function whose default is the empty
    dictionary. *)
Lemma def_generate_crd_intact h :
  ∃ h' f, def_generate_crd h = (h', Ret f) ∧ intact h' f.
Proof.
  eexists _, _. split; [apply def_generate_crd_run|].
  unfold intact, as_dict. simpl. by rewrite lookup_insert_eq.
Qed.

Lemma filled_agree p q :
  (∀ k, k ∈ ["n"; "b"; "d"; "pr"] → q !! k = p !! k) → filled q = filled p.
Proof.
  intros H. unfold filled.
  rewrite !H; [done|..]; repeat constructor.
Qed.
End Calls.

(** ** Two calls, and calls in sequence *)

Section Sequences.
Implicit Types (h : gmap loc obj) (f : func) (p : gmap string val).

Lemma intact_step h f arg : intact h f → intact (generate_crd f arg h).1 f.
Proof.
  intros (l & Hf & Hl)%intact_inv.
  destruct (generate_crd_store f arg h) as [P ->].
  unfold intact, as_dict. rewrite Hf.
  by rewrite (store_with_old h P l _ Hl).
Qed.

Lemma intact_sequence h f args : intact h f → intact (call_sequence f args h) f.
Proof.
  revert h. induction args as [|a args IH]; intros h Hi; [done|].
  simpl. by apply IH, intact_step.
Qed.

Lemma twice_on_dict f h c p :
  h !! c = Some (ODict p) →
  twice f (Some (VRef c)) h
  = (store_with (store_with h (filled p)) (filled p),
     Ret (VRef (game_loc h), VRef (game_loc (store_with h (filled p))))).
Proof.
  intros Hc. unfold twice.
  erewrite bind_Ret by (by eapply generate_crd_on_dict).
  erewrite bind_Ret; [done|].
  eapply generate_crd_on_dict; [done|]. by apply store_with_old.
Qed.

Lemma filled_immutable p :
  (∀ k v, k ∈ ["n"; "b"; "d"; "pr"] → p !! k = Some v → immutable v = true) →
  ∀ k v, filled p !! k = Some v → immutable v = true.
Proof.
  intros Hp k v. unfold filled.
  assert (∀ k dflt, k ∈ ["n"; "b"; "d"; "pr"] → immutable dflt = true →
                    immutable (default dflt (p !! k)) = true) as Hd.
  { intros k' dflt Hk Hdflt. destruct (p !! k') eqn:E; [by eapply Hp|done]. }
  rewrite !lookup_insert. repeat case_decide; try (intros [= <-]; apply Hd;
    [repeat constructor|done]).
  by rewrite lookup_empty.
Qed.

(** From a model whose parameters carry no reference, only its own two
    dictionaries can be reached. *)
Lemma reach_model h' lg lp P l :
  h' !! lg = Some (ODict {["parameters" := VRef lp]}) →
  h' !! lp = Some (ODict P) →
  (∀ k v, P !! k = Some v → immutable v = true) →
  reach h' (VRef lg) l → l = lg ∨ l = lp.
Proof.
  intros Hg Hp Him Hr.
  inversion Hr as [|? d k v ? Hl Hk Hv|? xs i v ? Hl]; subst;
    [by left| |by simplify_eq].
  rewrite Hg in Hl. injection Hl as <-.
  apply lookup_singleton_Some in Hk as [_ <-].
  inversion Hv as [|? d' k' v' ? Hl' Hk' Hv'|? xs i v' ? Hl']; subst;
    [by right| |by simplify_eq].
  rewrite Hp in Hl'. injection Hl' as <-.
  apply Him in Hk'. destruct v'; try done; inversion Hv'.
Qed.

(** With an intact default, no argument and [{}] both give the defaults. *)
Lemma model_of_default h f :
  intact h f →
  model_of (generate_crd f None h)
  = Some {["parameters" := {["n" := VInt 2; "b" := VInt 1; "d" := VInt (-10);
                             "pr" := VFloat 0.5]}]}
  ∧ model_of (call_with_display f ∅ h)
    = Some {["parameters" := {["n" := VInt 2; "b" := VInt 1;
                               "d" := VInt (-10); "pr" := VFloat 0.5]}]}.
Proof.
  intros (l & Hf & Hl)%intact_inv.
  rewrite model_of_display, (model_of_on_dict f None h l ∅ Hf Hl).
  split; reflexivity.
Qed.
End Sequences.

(** ** The properties of [generate_crd] *)

(** C1. On a dictionary [p], the call returns a model whose [parameters]
    mapping holds, under each recognised key, the value [p] has there, as it
    is, and otherwise that key's default: 2 for [n], 1 for [b], -10 for [d],
    0.5 for [pr].  So [{n: 5}] gives [{n: 5, b: 1, d: -10, pr: 0.5}] and a
    full dictionary is returned in full. *)
Theorem generate_crd_value_or_default h f c (p : gmap string val) :
  h !! c = Some (ODict p) →
  ∃ P : gmap string val,
    model_of (generate_crd f (Some (VRef c)) h) = Some {["parameters" := P]}
    ∧ (∀ k dflt,
         (k, dflt) ∈ [("n", VInt 2); ("b", VInt 1); ("d", VInt (-10));
                      ("pr", VFloat 0.5)] →
         P !! k = Some (default dflt (p !! k)))
    ∧ (p = {["n" := VInt 5]} →
       P = {["n" := VInt 5; "b" := VInt 1; "d" := VInt (-10);
             "pr" := VFloat 0.5]})
    ∧ (p = {["n" := VInt 5; "b" := VInt 2; "d" := VInt 0;
             "pr" := VFloat 0.9]} →
       P = {["n" := VInt 5; "b" := VInt 2; "d" := VInt 0;
             "pr" := VFloat 0.9]}).
Proof.
  intros Hc. exists (filled p). split; [by eapply model_of_on_dict|].
  split; [intros k dflt; apply filled_lookup|].
  split; intros ->; reflexivity.
Qed.

Lemma generate_crd_value_or_default_witness :
  ∃ P : gmap string val,
    model_of (generate_crd {| defaults0 := VNone |} (Some (VRef 1%positive))
                {[1%positive := ODict {["n" := VInt 5]}]})
    = Some {["parameters" := P]}
    ∧ (∀ k dflt,
         (k, dflt) ∈ [("n", VInt 2); ("b", VInt 1); ("d", VInt (-10));
                      ("pr", VFloat 0.5)] →
         P !! k = Some (default dflt (({["n" := VInt 5]} : gmap string val) !! k)))
    ∧ (({["n" := VInt 5]} : gmap string val) = {["n" := VInt 5]} →
       P = {["n" := VInt 5; "b" := VInt 1; "d" := VInt (-10);
             "pr" := VFloat 0.5]})
    ∧ (({["n" := VInt 5]} : gmap string val)
       = {["n" := VInt 5; "b" := VInt 2; "d" := VInt 0; "pr" := VFloat 0.9]} →
       P = {["n" := VInt 5; "b" := VInt 2; "d" := VInt 0;
             "pr" := VFloat 0.9]}).
Proof.
  apply (generate_crd_value_or_default
           {[1%positive := ODict {["n" := VInt 5]}]} {| defaults0 := VNone |}
           1%positive {["n" := VInt 5]}).
  reflexivity.
Defined.

(** C2. On a dictionary [p], whatever its keys, the [parameters] mapping of
    the returned model has exactly the keys [n], [b], [d] and [pr]; the model
    is the same for every dictionary that agrees with [p] on these four, so
    other keys are not copied and have no effect, and
    [{extra_key: 'ignored'}] gives what [{}] gives. *)
Theorem generate_crd_exactly_four_keys h f c (p : gmap string val) :
  h !! c = Some (ODict p) →
  ∃ P : gmap string val,
    model_of (generate_crd f (Some (VRef c)) h) = Some {["parameters" := P]}
    ∧ dom P = {["n"; "b"; "d"; "pr"]}
    ∧ (∀ h' f' c' (q : gmap string val),
         h' !! c' = Some (ODict q) →
         (∀ k, k ∈ ["n"; "b"; "d"; "pr"] → q !! k = p !! k) →
         model_of (generate_crd f' (Some (VRef c')) h')
         = Some {["parameters" := P]})
    ∧ (p = {["extra_key" := VStr "ignored"]} →
       model_of (call_with_display f ∅ h) = Some {["parameters" := P]}).
Proof.
  intros Hc. exists (filled p). split; [by eapply model_of_on_dict|].
  split; [apply filled_dom|]. split.
  - intros h' f' c' q Hq Hagree.
    rewrite <- (filled_agree p q Hagree). by eapply model_of_on_dict.
  - intros ->. rewrite model_of_display. do 2 f_equal.
Qed.

Lemma generate_crd_exactly_four_keys_witness :
  ∃ P : gmap string val,
    model_of (generate_crd {| defaults0 := VNone |} (Some (VRef 1%positive))
                {[1%positive := ODict {["extra_key" := VStr "ignored"]}]})
    = Some {["parameters" := P]}
    ∧ dom P = {["n"; "b"; "d"; "pr"]}
    ∧ (∀ h' f' c' (q : gmap string val),
         h' !! c' = Some (ODict q) →
         (∀ k, k ∈ ["n"; "b"; "d"; "pr"] →
               q !! k
               = ({["extra_key" := VStr "ignored"]} : gmap string val) !! k) →
         model_of (generate_crd f' (Some (VRef c')) h')
         = Some {["parameters" := P]})
    ∧ (({["extra_key" := VStr "ignored"]} : gmap string val)
       = {["extra_key" := VStr "ignored"]} →
       model_of (call_with_display {| defaults0 := VNone |} ∅
                   {[1%positive := ODict {["extra_key" := VStr "ignored"]}]})
       = Some {["parameters" := P]}).
Proof.
  apply (generate_crd_exactly_four_keys
           {[1%positive := ODict {["extra_key" := VStr "ignored"]}]}
           {| defaults0 := VNone |} 1%positive
           {["extra_key" := VStr "ignored"]}).
  reflexivity.
Defined.

(** C3. Once the [def] statement has run, and after any sequence of calls,
    a call with no argument and a call with an empty dictionary return the
    same model, the one with every default:
    [{parameters: {n: 2, b: 1, d: -10, pr: 0.5}}]. *)
Theorem generate_crd_empty_and_absent h0 args :
  ∃ h1 f,
    def_generate_crd h0 = (h1, Ret f)
    ∧ model_of (generate_crd f None (call_sequence f args h1))
      = Some {["parameters" := {["n" := VInt 2; "b" := VInt 1;
                                 "d" := VInt (-10); "pr" := VFloat 0.5]}]}
    ∧ model_of (call_with_display f ∅ (call_sequence f args h1))
      = Some {["parameters" := {["n" := VInt 2; "b" := VInt 1;
                                 "d" := VInt (-10); "pr" := VFloat 0.5]}]}
    ∧ model_of (call_with_display f ∅ (call_sequence f args h1))
      = model_of (generate_crd f None (call_sequence f args h1)).
Proof.
  destruct (def_generate_crd_intact h0) as (h1 & f & Hdef & Hi).
  exists h1, f. split; [done|].
  destruct (model_of_default (call_sequence f args h1) f) as [E1 E2];
    [by apply intact_sequence|].
  by rewrite E1, E2.
Qed.

(** C4, as the code has it.  A call with no argument behaves as a call with
    an empty dictionary and returns the model with every default.  An
    explicit [None] is not taken for a dictionary: the call raises
    [AttributeError], since [None] has no [get], and returns no model. *)
Theorem generate_crd_absent_argument h f :
  intact h f →
  generate_crd f None h = generate_crd f (Some (defaults0 f)) h
  ∧ model_of (generate_crd f None h) = model_of (call_with_display f ∅ h)
  ∧ is_Some (model_of (generate_crd f None h))
  ∧ (∃ h', generate_crd f (Some VNone) h
           = (h', Raise (AttributeError "NoneType" "get")))
  ∧ model_of (generate_crd f (Some VNone) h) = None.
Proof.
  intros Hi. split; [done|].
  destruct (model_of_default h f Hi) as [E1 E2].
  split; [by rewrite E1, E2|]. split; [by rewrite E1|].
  rewrite (generate_crd_no_dict f (Some VNone) h) by done.
  split; [by eexists|done].
Qed.

Lemma generate_crd_absent_argument_witness :
  def_generate_crd ∅
  = ({[1%positive := ODict ∅]}, Ret {| defaults0 := VRef 1%positive |})
  ∧ model_of (generate_crd {| defaults0 := VRef 1%positive |} None
                {[1%positive := ODict ∅]})
    = model_of (call_with_display {| defaults0 := VRef 1%positive |} ∅
                  {[1%positive := ODict ∅]}).
Proof.
  split; [reflexivity|].
  refine (proj1 (proj2 (generate_crd_absent_argument
                          {[1%positive := ODict ∅]}
                          {| defaults0 := VRef 1%positive |} _))).
  reflexivity.
Defined.

(** C4 does not hold as stated: right after the [def] statement, the call
    on [None] raises and yields no model, whereas the call with no argument
    yields the defaults. *)
Lemma generate_crd_None_raises :
  (generate_crd {| defaults0 := VRef 1%positive |} (Some VNone)
     {[1%positive := ODict ∅]}).2
  = Raise (AttributeError "NoneType" "get")
  ∧ model_of (generate_crd {| defaults0 := VRef 1%positive |} (Some VNone)
                {[1%positive := ODict ∅]})
    ≠ model_of (generate_crd {| defaults0 := VRef 1%positive |} None
                  {[1%positive := ODict ∅]}).
Proof.
  rewrite (generate_crd_no_dict _ (Some VNone) _ eq_refl).
  split; [reflexivity|].
  by erewrite (model_of_on_dict _ None _ 1%positive ∅) by reflexivity.
Qed.

(** C5. On a dictionary the call never fails: whatever the keys of [p] and
    whatever values it holds, the call returns a model and raises nothing;
    the same holds for the call with no argument when the default is a
    dictionary. *)
Theorem generate_crd_never_raises h f c (p : gmap string val) :
  h !! c = Some (ODict p) →
  (∃ h' g, generate_crd f (Some (VRef c)) h = (h', Ret g)
           ∧ is_Some (read_model h' g))
  ∧ (∀ h' e, generate_crd f (Some (VRef c)) h ≠ (h', Raise e))
  ∧ (defaults0 f = VRef c →
     ∃ h' g, generate_crd f None h = (h', Ret g) ∧ is_Some (read_model h' g)).
Proof.
  intros Hc.
  rewrite (generate_crd_on_dict f (Some (VRef c)) h c p eq_refl Hc).
  split; [|split].
  - eexists _, _. split; [done|]. by rewrite read_model_store.
  - by intros h' e [= _].
  - intros Hf. rewrite (generate_crd_on_dict f None h c p Hf Hc).
    eexists _, _. split; [done|]. by rewrite read_model_store.
Qed.

Lemma generate_crd_never_raises_witness :
  ∃ h' g,
    generate_crd {| defaults0 := VNone |} (Some (VRef 1%positive))
      {[1%positive := ODict {["n" := VStr "two"; "pr" := VNone;
                              "other" := VBool true]}]}
    = (h', Ret g)
    ∧ is_Some (read_model h' g).
Proof.
  refine (proj1 (generate_crd_never_raises
                   {[1%positive := ODict {["n" := VStr "two"; "pr" := VNone;
                                           "other" := VBool true]}]}
                   {| defaults0 := VNone |} 1%positive
                   {["n" := VStr "two"; "pr" := VNone; "other" := VBool true]}
                   _)).
  reflexivity.
Defined.

(** C6. A call has no effect but the allocation of its own two
    dictionaries: whatever the argument, and whether it returns or raises,
    every object of the store is afterwards what it was before, the
    dictionary passed in among them, and the final store is the initial one
    with two objects at unused addresses. *)
Theorem generate_crd_frame h f arg :
  (∀ l o, h !! l = Some o → (generate_crd f arg h).1 !! l = Some o)
  ∧ (∀ c p, arg = Some (VRef c) → h !! c = Some (ODict p) →
            as_dict (generate_crd f arg h).1 (VRef c) = Some p)
  ∧ (∃ P, (generate_crd f arg h).1 = store_with h P)
  ∧ h !! game_loc h = None ∧ h !! params_loc h = None.
Proof.
  destruct (generate_crd_store f arg h) as [P ->].
  split; [intros l o; apply store_with_old|].
  split.
  - intros c p _ Hc. unfold as_dict.
    by rewrite (store_with_old h P c _ Hc).
  - split; [by eexists|]. split; [apply game_loc_fresh|apply params_loc_fresh].
Qed.

Lemma generate_crd_frame_witness :
  (generate_crd {| defaults0 := VNone |} (Some (VRef 1%positive))
     {[1%positive := ODict {["n" := VInt 5]}]}).1 !! 1%positive
  = Some (ODict {["n" := VInt 5]}).
Proof.
  apply (proj1 (generate_crd_frame {[1%positive := ODict {["n" := VInt 5]}]}
                  {| defaults0 := VNone |} (Some (VRef 1%positive)))).
  reflexivity.
Defined.

(** C7, as the code has it.  Two calls on the same dictionary [p] return
    structurally equal models.  Each model is made of two dictionaries
    allocated by its own call: the four are pairwise distinct and none of
    them existed before.  The values of [p] are passed on as they are, by
    reference, so the two models share no state when the values [p] holds
    under the four recognised keys are immutable. *)
Theorem generate_crd_twice h f c (p : gmap string val) :
  h !! c = Some (ODict p) →
  ∃ h2 l1 q1 l2 q2,
    twice f (Some (VRef c)) h = (h2, Ret (VRef l1, VRef l2))
    ∧ read_model h2 (VRef l1) = read_model h2 (VRef l2)
    ∧ is_Some (read_model h2 (VRef l1))
    ∧ h2 !! l1 = Some (ODict {["parameters" := VRef q1]})
    ∧ h2 !! l2 = Some (ODict {["parameters" := VRef q2]})
    ∧ NoDup [l1; q1; l2; q2]
    ∧ (∀ l, l ∈ [l1; q1; l2; q2] → h !! l = None)
    ∧ ((∀ k v, k ∈ ["n"; "b"; "d"; "pr"] → p !! k = Some v →
               immutable v = true) →
       ¬ shares h2 (VRef l1) (VRef l2)).
Proof.
  intros Hc.
  set (h1 := store_with h (filled p)).
  assert (h1 !! c = Some (ODict p)) as Hc1 by by apply store_with_old.
  assert (h1 !! game_loc h = Some (ODict {["parameters" := VRef (params_loc h)]}))
    as Hg1 by apply store_with_game.
  assert (h1 !! params_loc h = Some (ODict (filled p)))
    as Hp1 by apply store_with_params.
  pose proof (game_loc_fresh h1) as Fg. pose proof (params_loc_fresh h1) as Fp.
  pose proof (params_loc_ne h) as N1. pose proof (params_loc_ne h1) as N2.
  exists (store_with h1 (filled p)), (game_loc h), (params_loc h),
         (game_loc h1), (params_loc h1).
  split; [by apply twice_on_dict|].
  assert (read_model (store_with h1 (filled p)) (VRef (game_loc h))
          = Some {["parameters" := filled p]}) as R1.
  { unfold read_model, as_dict at 1.
    rewrite (store_with_old h1 _ _ _ Hg1).
    rewrite decide_True.
    - rewrite omap_singleton_Some with (y := filled p); [done|].
      unfold as_dict. by rewrite (store_with_old h1 _ _ _ Hp1).
    - apply map_Forall_singleton. unfold as_dict.
      by rewrite (store_with_old h1 _ _ _ Hp1). }
  split; [by rewrite R1, read_model_store|].
  split; [by rewrite R1|].
  split; [by apply store_with_old|].
  split; [apply store_with_game|].
  split.
  { repeat (apply NoDup_cons; split); [| | |by apply not_elem_of_nil|apply NoDup_nil_2];
      rewrite ?elem_of_cons, ?elem_of_nil; intros E;
      repeat destruct E as [E|E]; try done; congruence. }
  split.
  { intros l Hl. repeat (apply elem_of_cons in Hl as [->|Hl]).
    - apply game_loc_fresh.
    - apply params_loc_fresh.
    - destruct (h !! game_loc h1) eqn:E; [|done].
      apply (store_with_old h (filled p)) in E. fold h1 in E. congruence.
    - destruct (h !! params_loc h1) eqn:E; [|done].
      apply (store_with_old h (filled p)) in E. fold h1 in E. congruence.
    - by apply elem_of_nil in Hl. }
  intros Him (l & Ha & Hb).
  pose proof (filled_immutable p Him) as HP.
  apply (reach_model _ _ (params_loc h) (filled p)) in Ha;
    [|by apply store_with_old..|done].
  apply (reach_model _ _ (params_loc h1) (filled p)) in Hb;
    [|apply store_with_game|apply store_with_params|done].
  destruct Ha as [->| ->], Hb as [E|E]; congruence.
Qed.

Lemma generate_crd_twice_witness :
  ∃ h2 l1 q1 l2 q2,
    twice {| defaults0 := VNone |} (Some (VRef 1%positive))
      {[1%positive := ODict {["n" := VInt 5]}]}
    = (h2, Ret (VRef l1, VRef l2))
    ∧ read_model h2 (VRef l1) = read_model h2 (VRef l2)
    ∧ is_Some (read_model h2 (VRef l1))
    ∧ h2 !! l1 = Some (ODict {["parameters" := VRef q1]})
    ∧ h2 !! l2 = Some (ODict {["parameters" := VRef q2]})
    ∧ NoDup [l1; q1; l2; q2]
    ∧ (∀ l, l ∈ [l1; q1; l2; q2] →
            ({[1%positive := ODict {["n" := VInt 5]}]} : gmap loc obj) !! l
            = None)
    ∧ ((∀ k v, k ∈ ["n"; "b"; "d"; "pr"] →
               ({["n" := VInt 5]} : gmap string val) !! k = Some v →
               immutable v = true) →
       ¬ shares h2 (VRef l1) (VRef l2)).
Proof.
  apply (generate_crd_twice {[1%positive := ODict {["n" := VInt 5]}]}
           {| defaults0 := VNone |} 1%positive {["n" := VInt 5]}).
  reflexivity.
Defined.

(** C7 does not hold as stated: when [p] holds a list under [n], the two
    models returned for [p] both refer to that one list. *)
Lemma generate_crd_twice_shares_values :
  ∃ h2 l1 l2,
    twice {| defaults0 := VNone |} (Some (VRef 2%positive))
      {[1%positive := OList [VInt 1];
        2%positive := ODict {["n" := VRef 1%positive]}]}
    = (h2, Ret (VRef l1, VRef l2))
    ∧ h2 !! 1%positive = Some (OList [VInt 1])
    ∧ reach h2 (VRef l1) 1%positive
    ∧ reach h2 (VRef l2) 1%positive
    ∧ shares h2 (VRef l1) (VRef l2).
Proof.
  eexists _, _, _. split.
  { apply twice_on_dict with (p := {["n" := VRef 1%positive]}). reflexivity. }
  set (h := ({[1%positive := OList [VInt 1];
               2%positive := ODict {["n" := VRef 1%positive]}]}
             : gmap loc obj)).
  set (P := filled {["n" := VRef 1%positive]}).
  assert (P !! "n" = Some (VRef 1%positive)) as HP by reflexivity.
  assert (h !! 1%positive = Some (OList [VInt 1])) as H1 by reflexivity.
  assert (reach (store_with (store_with h P) P) (VRef (game_loc h)) 1%positive)
    as Ra.
  { eapply reach_dict;
      [apply store_with_old, store_with_game|apply lookup_singleton_eq|].
    eapply reach_dict; [apply store_with_old, store_with_params|exact HP|].
    constructor. }
  assert (reach (store_with (store_with h P) P)
            (VRef (game_loc (store_with h P))) 1%positive) as Rb.
  { eapply reach_dict; [apply store_with_game|apply lookup_singleton_eq|].
    eapply reach_dict; [apply store_with_params|exact HP|].
    constructor. }
  split; [by do 2 apply store_with_old|].
  split; [done|]. split; [done|]. by exists 1%positive.
Qed.

(** C8. The call always completes.  The body is a fixed sequence of
    fifteen primitive steps, with no loop and no recursion: for every store
    and every argument it ends, returning or raising, having allocated
    exactly two objects; on a dictionary it ends by returning. *)
Theorem generate_crd_completes h f arg :
  (∃ h' r, generate_crd f arg h = (h', r) ∧ size h' = S (S (size h)))
  ∧ (∀ c (p : gmap string val),
       arg = Some (VRef c) → h !! c = Some (ODict p) →
       ∃ h' g, generate_crd f arg h = (h', Ret g)).
Proof.
  split.
  - destruct (generate_crd_store f arg h) as [P HP].
    destruct (generate_crd f arg h) as [h' r]. simpl in HP. subst h'.
    eexists _, _. split; [done|]. apply store_with_size.
  - intros c p -> Hc. eexists _, _. by eapply generate_crd_on_dict.
Qed.

Lemma generate_crd_completes_witness :
  ∃ h' g,
    generate_crd {| defaults0 := VNone |} (Some (VRef 1%positive))
      {[1%positive := ODict {["n" := VInt 5]}]}
    = (h', Ret g).
Proof.
  apply (proj2 (generate_crd_completes {[1%positive := ODict {["n" := VInt 5]}]}
                  {| defaults0 := VNone |} (Some (VRef 1%positive)))
           1%positive {["n" := VInt 5]}); reflexivity.
Defined.

(** C9. Presence decides, not the value.  For a recognised key [k] with
    default [dflt]: the call on [{k: v}] returns [v] under [k], whatever [v]
    is, [None] and [dflt] included; and on any dictionary [p] the output
    under [k] is the value [p] has at [k] whenever [p] has one, the default
    being used only when [p] has no key [k]. *)
Theorem generate_crd_presence_decides h f k dflt :
  (k, dflt) ∈ [("n", VInt 2); ("b", VInt 1); ("d", VInt (-10));
               ("pr", VFloat 0.5)] →
  (∀ v, ∃ P : gmap string val,
      model_of (call_with_display f {[k := v]} h) = Some {["parameters" := P]}
      ∧ P !! k = Some v)
  ∧ (∃ P : gmap string val,
      model_of (call_with_display f {[k := VNone]} h)
      = Some {["parameters" := P]}
      ∧ P !! k = Some VNone)
  ∧ (∀ c (p : gmap string val),
       h !! c = Some (ODict p) →
       ∃ P : gmap string val,
         model_of (generate_crd f (Some (VRef c)) h)
         = Some {["parameters" := P]}
         ∧ (∀ v, p !! k = Some v → P !! k = Some v)
         ∧ (p !! k = None → P !! k = Some dflt)
         ∧ (∀ v, P !! k = Some v → v ≠ dflt → p !! k = Some v)).
Proof.
  intros Hk.
  assert (∀ v, ∃ P : gmap string val,
      model_of (call_with_display f {[k := v]} h) = Some {["parameters" := P]}
      ∧ P !! k = Some v) as Hv.
  { intros v. exists (filled {[k := v]}). split; [apply model_of_display|].
    rewrite (filled_lookup _ k dflt Hk). by rewrite lookup_singleton_eq. }
  split; [done|]. split; [apply Hv|].
  intros c p Hc. exists (filled p). split; [by eapply model_of_on_dict|].
  rewrite (filled_lookup p k dflt Hk).
  split; [by intros v ->|]. split; [by intros ->|].
  intros v. destruct (p !! k); simpl; congruence.
Qed.

Lemma generate_crd_presence_decides_witness :
  ∃ P : gmap string val,
    model_of (call_with_display {| defaults0 := VNone |} {["pr" := VNone]} ∅)
    = Some {["parameters" := P]}
    ∧ P !! "pr" = Some VNone.
Proof.
  refine (proj1 (proj2 (generate_crd_presence_decides ∅ {| defaults0 := VNone |}
                          "pr" (VFloat 0.5) _))).
  do 3 right. left.
Defined.

(** C10. No call writes to the default dictionary of the function.
    Starting from a store where it is the empty dictionary, it is still the
    empty dictionary after any one call and after any sequence of calls,
    whatever their arguments and whether they return or raise; so after
    any sequence of calls a call with no argument still returns the model with
    every default, as a call with an empty dictionary does. *)
Theorem generate_crd_default_never_mutated h f args :
  intact h f →
  (∀ arg, intact (generate_crd f arg h).1 f)
  ∧ intact (call_sequence f args h) f
  ∧ model_of (generate_crd f None (call_sequence f args h))
    = Some {["parameters" := {["n" := VInt 2; "b" := VInt 1;
                               "d" := VInt (-10); "pr" := VFloat 0.5]}]}
  ∧ model_of (generate_crd f None (call_sequence f args h))
    = model_of (call_with_display f ∅ (call_sequence f args h)).
Proof.
  intros Hi. split; [intros arg; by apply intact_step|].
  pose proof (intact_sequence h f args Hi) as Hs. split; [done|].
  destruct (model_of_default _ f Hs) as [E1 E2].
  by rewrite E1, E2.
Qed.

Lemma generate_crd_default_never_mutated_witness :
  def_generate_crd ∅
  = ({[1%positive := ODict ∅]}, Ret {| defaults0 := VRef 1%positive |})
  ∧ model_of
      (generate_crd {| defaults0 := VRef 1%positive |} None
         (call_sequence {| defaults0 := VRef 1%positive |}
            [None; Some VNone; Some (VRef 1%positive); Some (VRef 2%positive);
             None]
            {[1%positive := ODict ∅]}))
    = Some {["parameters" := {["n" := VInt 2; "b" := VInt 1;
                               "d" := VInt (-10); "pr" := VFloat 0.5]}]}.
Proof.
  split; [reflexivity|].
  refine (proj1 (proj2 (proj2 (generate_crd_default_never_mutated
                                 {[1%positive := ODict ∅]}
                                 {| defaults0 := VRef 1%positive |} _ _)))).
  reflexivity.
Defined.

(** ** Callers: what can be done with a model, an input and the default *)

Section Callers.
Implicit Types (h : gmap loc obj) (f : func) (p P : gmap string val).

(** A model laid out in any store as the function lays it out. *)
Lemma read_model_at h lg lp P :
  h !! lg = Some (ODict {["parameters" := VRef lp]}) →
  h !! lp = Some (ODict P) →
  read_model h (VRef lg) = Some {["parameters" := P]}.
Proof.
  intros Hg Hp. unfold read_model, as_dict at 1. rewrite Hg.
  assert (as_dict h (VRef lp) = Some P) as E by (unfold as_dict; by rewrite Hp).
  rewrite decide_True by (apply map_Forall_singleton; by rewrite E).
  by rewrite omap_singleton_Some with (y := P).
Qed.

Lemma assign_parameter_run h lg lp P key v :
  h !! lg = Some (ODict {["parameters" := VRef lp]}) →
  h !! lp = Some (ODict P) →
  assign_parameter (VRef lg) key v h
  = (<[lp := ODict (<[key := v]> P)]> h, Ret tt).
Proof.
  intros Hg Hp. unfold assign_parameter.
  erewrite bind_Ret by (eapply getitem_dict; [exact Hg|apply lookup_singleton_eq]).
  by apply setitem_dict.
Qed.

Lemma old_ne_game h l o : h !! l = Some o → l ≠ game_loc h.
Proof. intros E ->. by rewrite game_loc_fresh in E. Qed.

Lemma old_ne_params h l o : h !! l = Some o → l ≠ params_loc h.
Proof. intros E ->. by rewrite params_loc_fresh in E. Qed.

(** Filling twice changes nothing: a filled dictionary has all four keys. *)
Lemma filled_filled p : filled (filled p) = filled p.
Proof.
  unfold filled at 1.
  rewrite (filled_lookup p "n" (VInt 2)) by (left).
  rewrite (filled_lookup p "b" (VInt 1)) by (right; left).
  rewrite (filled_lookup p "d" (VInt (-10))) by (do 2 right; left).
  rewrite (filled_lookup p "pr" (VFloat 0.5)) by (do 3 right; left).
  done.
Qed.

(** A model has one key, [parameters], which is none of the four. *)
Lemma filled_model (v : val) : filled {["parameters" := v]} = filled ∅.
Proof.
  apply filled_agree. intros k Hk.
  rewrite lookup_empty. apply lookup_singleton_ne.
  intros <-. repeat (apply elem_of_cons in Hk as [?|Hk]; [done|]).
  by apply elem_of_nil in Hk.
Qed.

(** The call with no argument reads the default dictionary as it is. *)
Lemma model_of_no_argument h f d :
  as_dict h (defaults0 f) = Some d →
  model_of (generate_crd f None h) = Some {["parameters" := filled d]}.
Proof.
  unfold as_dict. intros E.
  destruct (defaults0 f) as [| | | | |l] eqn:Hf; try done.
  destruct (h !! l) as [[d'|xs]|] eqn:Hl; simplify_eq.
  by apply model_of_on_dict with (c := l).
Qed.
End Callers.

(** ** Further properties of [generate_crd] *)

(** X1. An argument that is not a dictionary, be it [None], a number, a
    string, a boolean or a list, makes the call raise [AttributeError] for
    the attribute [get] of that type; every object of the store is left as
    it was. *)
Theorem generate_crd_rejects_non_dict h f v :
  (∀ l, v = VRef l → ∃ xs, h !! l = Some (OList xs)) →
  ∃ h', generate_crd f (Some v) h
        = (h', Raise (AttributeError (type_name h v) "get"))
        ∧ (∀ l o, h !! l = Some o → h' !! l = Some o).
Proof.
  intros Hv.
  assert (as_dict (store_with h ∅) v = None
          ∧ type_name (store_with h ∅) v = type_name h v) as [Hd Ht].
  { destruct v as [| | | | |l]; try done.
    destruct (Hv l eq_refl) as [xs Hl]. unfold as_dict, type_name.
    by rewrite (store_with_old h ∅ l _ Hl), Hl. }
  rewrite (generate_crd_no_dict f (Some v) h Hd). simpl. rewrite Ht.
  eexists. split; [done|]. intros l o. apply store_with_old.
Qed.

Lemma generate_crd_rejects_non_dict_witness :
  ∃ h', generate_crd {| defaults0 := VNone |} (Some (VRef 1%positive))
          {[1%positive := OList [VInt 5]]}
        = (h', Raise (AttributeError "list" "get"))
        ∧ (∀ l o, ({[1%positive := OList [VInt 5]]} : gmap loc obj) !! l = Some o →
                  h' !! l = Some o).
Proof.
  pose proof (generate_crd_rejects_non_dict {[1%positive := OList [VInt 5]]}
                {| defaults0 := VNone |} (VRef 1%positive)) as H.
  exact (H ltac:(intros l [= <-]; eexists; reflexivity)).
Defined.

(** X2. Feeding the parameters of a returned model back in gives the same
    model again: [generate_crd(generate_crd(p)['parameters'])] reads as
    [generate_crd(p)]. *)
Theorem generate_crd_on_own_parameters h f c (p : gmap string val) :
  h !! c = Some (ODict p) →
  model_of ((let! m := generate_crd f (Some (VRef c)) in
             let! q := getitem m "parameters" in
             generate_crd f (Some q)) h)
  = model_of (generate_crd f (Some (VRef c)) h)
  ∧ is_Some (model_of (generate_crd f (Some (VRef c)) h)).
Proof.
  intros Hc.
  rewrite (model_of_on_dict f (Some (VRef c)) h c p eq_refl Hc).
  split; [|done].
  erewrite bind_Ret by (by eapply generate_crd_on_dict).
  erewrite bind_Ret
    by (eapply getitem_dict; [apply store_with_game|apply lookup_singleton_eq]).
  erewrite model_of_on_dict; [|done|apply store_with_params].
  by rewrite filled_filled.
Qed.

Lemma generate_crd_on_own_parameters_witness :
  model_of ((let! m := generate_crd {| defaults0 := VNone |}
                         (Some (VRef 1%positive)) in
             let! q := getitem m "parameters" in
             generate_crd {| defaults0 := VNone |} (Some q))
              {[1%positive := ODict {["n" := VInt 5]}]})
  = model_of (generate_crd {| defaults0 := VNone |} (Some (VRef 1%positive))
                {[1%positive := ODict {["n" := VInt 5]}]}).
Proof.
  refine (proj1 (generate_crd_on_own_parameters
                   {[1%positive := ODict {["n" := VInt 5]}]}
                   {| defaults0 := VNone |} 1%positive {["n" := VInt 5]} _)).
  reflexivity.
Defined.

(** X3. A model is not a configuration: its only key is [parameters], so
    passing a returned model back in, [generate_crd(generate_crd(p))], gives
    the model with every default whatever [p] held. *)
Theorem generate_crd_on_own_model h f c (p : gmap string val) :
  h !! c = Some (ODict p) →
  model_of ((let! m := generate_crd f (Some (VRef c)) in
             generate_crd f (Some m)) h)
  = Some {["parameters" := {["n" := VInt 2; "b" := VInt 1; "d" := VInt (-10);
                             "pr" := VFloat 0.5]}]}.
Proof.
  intros Hc.
  erewrite bind_Ret by (by eapply generate_crd_on_dict).
  erewrite model_of_on_dict; [|done|apply store_with_game].
  rewrite filled_model. reflexivity.
Qed.

Lemma generate_crd_on_own_model_witness :
  model_of ((let! m := generate_crd {| defaults0 := VNone |}
                         (Some (VRef 1%positive)) in
             generate_crd {| defaults0 := VNone |} (Some m))
              {[1%positive := ODict {["n" := VInt 5]}]})
  = Some {["parameters" := {["n" := VInt 2; "b" := VInt 1; "d" := VInt (-10);
                             "pr" := VFloat 0.5]}]}.
Proof.
  apply (generate_crd_on_own_model {[1%positive := ODict {["n" := VInt 5]}]}
           {| defaults0 := VNone |} 1%positive {["n" := VInt 5]}).
  reflexivity.
Defined.

(** X4. The model is a snapshot of the input, not a view of it: when the
    caller assigns [p[k] = v] after the call, [p] changes and the model
    returned earlier still reads as it did. *)
Theorem generate_crd_snapshot h f c (p : gmap string val) k v :
  h !! c = Some (ODict p) →
  ∃ h' g,
    (let! m := generate_crd f (Some (VRef c)) in
     do! setitem (VRef c) k v in
     ret m) h = (h', Ret g)
    ∧ as_dict h' (VRef c) = Some (<[k := v]> p)
    ∧ read_model h' g = Some {["parameters" := filled p]}
    ∧ model_of (generate_crd f (Some (VRef c)) h)
      = Some {["parameters" := filled p]}.
Proof.
  intros Hc.
  pose proof (old_ne_game h c _ Hc) as Ng.
  pose proof (old_ne_params h c _ Hc) as Np.
  eexists _, _. split.
  { erewrite bind_Ret by (by eapply generate_crd_on_dict).
    erewrite bind_Ret by (apply setitem_dict, store_with_old, Hc).
    reflexivity. }
  split; [unfold as_dict; by rewrite lookup_insert_eq|].
  split; [|by eapply model_of_on_dict].
  apply read_model_at with (lp := params_loc h).
  - rewrite lookup_insert_ne by done. apply store_with_game.
  - rewrite lookup_insert_ne by done. apply store_with_params.
Qed.

Lemma generate_crd_snapshot_witness :
  ∃ h' g,
    (let! m := generate_crd {| defaults0 := VNone |} (Some (VRef 1%positive)) in
     do! setitem (VRef 1%positive) "n" (VInt 99) in
     ret m) {[1%positive := ODict {["n" := VInt 5]}]} = (h', Ret g)
    ∧ as_dict h' (VRef 1%positive) = Some (<["n" := VInt 99]> {["n" := VInt 5]})
    ∧ read_model h' g = Some {["parameters" := filled {["n" := VInt 5]}]}
    ∧ model_of (generate_crd {| defaults0 := VNone |} (Some (VRef 1%positive))
                  {[1%positive := ODict {["n" := VInt 5]}]})
      = Some {["parameters" := filled {["n" := VInt 5]}]}.
Proof.
  apply (generate_crd_snapshot {[1%positive := ODict {["n" := VInt 5]}]}
           {| defaults0 := VNone |} 1%positive {["n" := VInt 5]} "n" (VInt 99)).
  reflexivity.
Defined.

(** X5. The returned model is the caller's own: assigning
    [m['parameters'][k] = v] on it changes the model and nothing else.  The
    input dictionary and the default dictionary, like every other object that
    existed before the call, stay as they were, and the same call made again
    returns what it returned the first time. *)
Theorem generate_crd_result_is_private h f arg c (p : gmap string val) k v :
  default (defaults0 f) arg = VRef c → h !! c = Some (ODict p) →
  ∃ h' g,
    (let! m := generate_crd f arg in
     do! assign_parameter m k v in
     ret m) h = (h', Ret g)
    ∧ read_model h' g = Some {["parameters" := <[k := v]> (filled p)]}
    ∧ (∀ l o, h !! l = Some o → h' !! l = Some o)
    ∧ model_of (generate_crd f arg h') = Some {["parameters" := filled p]}.
Proof.
  intros Hcfg Hc. exists (store_with h (<[k := v]> (filled p))), (VRef (game_loc h)).
  split.
  { erewrite bind_Ret by (by eapply generate_crd_on_dict).
    erewrite bind_Ret
      by (eapply assign_parameter_run;
          [apply store_with_game|apply store_with_params]).
    by rewrite store_with_update. }
  split; [apply read_model_store|].
  split; [intros l o; apply store_with_old|].
  eapply model_of_on_dict; [done|]. by apply store_with_old.
Qed.

Lemma generate_crd_result_is_private_witness :
  ∃ h' g,
    (let! m := generate_crd {| defaults0 := VRef 1%positive |} None in
     do! assign_parameter m "n" (VInt 99) in
     ret m) {[1%positive := ODict ∅]} = (h', Ret g)
    ∧ read_model h' g
      = Some {["parameters" := <["n" := VInt 99]> (filled ∅)]}
    ∧ (∀ l o, ({[1%positive := ODict ∅]} : gmap loc obj) !! l = Some o →
              h' !! l = Some o)
    ∧ model_of (generate_crd {| defaults0 := VRef 1%positive |} None h')
      = Some {["parameters" := filled ∅]}.
Proof.
  apply (generate_crd_result_is_private {[1%positive := ODict ∅]}
           {| defaults0 := VRef 1%positive |} None 1%positive ∅ "n" (VInt 99));
    reflexivity.
Defined.

(** X6. Two models returned for the same input do not see each other's
    keys: after [a = generate_crd(p); b = generate_crd(p)], assigning
    [a['parameters'][k] = v] changes [a] and leaves [b] reading as before,
    whatever values [p] holds. *)
Theorem generate_crd_results_independent h f c (p : gmap string val) k v :
  h !! c = Some (ODict p) →
  ∃ h' a b,
    (let! a := generate_crd f (Some (VRef c)) in
     let! b := generate_crd f (Some (VRef c)) in
     do! assign_parameter a k v in
     ret (a, b)) h = (h', Ret (a, b))
    ∧ read_model h' a = Some {["parameters" := <[k := v]> (filled p)]}
    ∧ read_model h' b = Some {["parameters" := filled p]}.
Proof.
  intros Hc.
  set (h1 := store_with h (filled p)).
  assert (h1 !! c = Some (ODict p)) as Hc1 by by apply store_with_old.
  assert (h1 !! game_loc h = Some (ODict {["parameters" := VRef (params_loc h)]}))
    as Hg1 by apply store_with_game.
  assert (h1 !! params_loc h = Some (ODict (filled p)))
    as Hp1 by apply store_with_params.
  pose proof (old_ne_game h1 _ _ Hp1) as N1.
  pose proof (old_ne_params h1 _ _ Hp1) as N2.
  pose proof (params_loc_ne h) as N3.
  exists (<[params_loc h := ODict (<[k := v]> (filled p))]>
            (store_with h1 (filled p))),
         (VRef (game_loc h)), (VRef (game_loc h1)).
  split.
  { erewrite bind_Ret by (by eapply generate_crd_on_dict).
    erewrite bind_Ret by (by eapply generate_crd_on_dict).
    erewrite bind_Ret; [reflexivity|].
    eapply assign_parameter_run; by apply store_with_old. }
  split.
  - apply read_model_at with (lp := params_loc h).
    + rewrite lookup_insert_ne by done. by apply store_with_old.
    + apply lookup_insert_eq.
  - apply read_model_at with (lp := params_loc h1).
    + rewrite lookup_insert_ne by done. apply store_with_game.
    + rewrite lookup_insert_ne by done. apply store_with_params.
Qed.

Lemma generate_crd_results_independent_witness :
  ∃ h' a b,
    (let! a := generate_crd {| defaults0 := VNone |} (Some (VRef 2%positive)) in
     let! b := generate_crd {| defaults0 := VNone |} (Some (VRef 2%positive)) in
     do! assign_parameter a "n" (VInt 99) in
     ret (a, b))
      {[1%positive := OList [VInt 1];
        2%positive := ODict {["n" := VRef 1%positive]}]} = (h', Ret (a, b))
    ∧ read_model h' a
      = Some {["parameters" :=
                 <["n" := VInt 99]> (filled {["n" := VRef 1%positive]})]}
    ∧ read_model h' b
      = Some {["parameters" := filled {["n" := VRef 1%positive]}]}.
Proof.
  apply (generate_crd_results_independent
           {[1%positive := OList [VInt 1];
             2%positive := ODict {["n" := VRef 1%positive]}]}
           {| defaults0 := VNone |} 2%positive {["n" := VRef 1%positive]}
           "n" (VInt 99)).
  reflexivity.
Defined.

(** X7. The default of [config] is one dictionary, read anew by every call
    made with no argument.  Whatever that dictionary holds at the time is
    what the call uses: once a value has been stored in it under a
    recognised key, a call with no argument returns that value and not the
    literal default. *)
Theorem generate_crd_reads_shared_default h f (d : gmap string val) k dflt v :
  as_dict h (defaults0 f) = Some d →
  (k, dflt) ∈ [("n", VInt 2); ("b", VInt 1); ("d", VInt (-10));
               ("pr", VFloat 0.5)] →
  model_of (generate_crd f None h) = Some {["parameters" := filled d]}
  ∧ ∃ P : gmap string val,
      model_of ((do! setitem (defaults0 f) k v in generate_crd f None) h)
      = Some {["parameters" := P]}
      ∧ P !! k = Some v
      ∧ P = filled (<[k := v]> d).
Proof.
  intros Hd Hk. split; [by apply model_of_no_argument|].
  exists (filled (<[k := v]> d)).
  assert (∃ l, defaults0 f = VRef l ∧ h !! l = Some (ODict d)) as (l & Hf & Hl).
  { unfold as_dict in Hd. destruct (defaults0 f) as [| | | | |l]; try done.
    exists l. split; [done|]. destruct (h !! l) as [[?|?]|]; by simplify_eq. }
  split; [|split; [|done]].
  - rewrite Hf. erewrite bind_Ret by (by apply setitem_dict).
    apply model_of_no_argument. rewrite Hf. unfold as_dict.
    by rewrite lookup_insert_eq.
  - rewrite (filled_lookup _ k dflt Hk). by rewrite lookup_insert_eq.
Qed.

Lemma generate_crd_reads_shared_default_witness :
  ∃ P : gmap string val,
    model_of ((do! setitem (VRef 1%positive) "n" (VInt 7) in
               generate_crd {| defaults0 := VRef 1%positive |} None)
                {[1%positive := ODict ∅]})
    = Some {["parameters" := P]}
    ∧ P !! "n" = Some (VInt 7)
    ∧ P = filled (<["n" := VInt 7]> ∅).
Proof.
  refine (proj2 (generate_crd_reads_shared_default {[1%positive := ODict ∅]}
                   {| defaults0 := VRef 1%positive |} ∅ "n" (VInt 2) (VInt 7)
                   _ _)).
  - reflexivity.
  - left.
Defined.

(** X8. Calls add to the store and never take from it: after any sequence
    of calls, returning or raising, every object that existed before is
    unchanged, and the store has grown by exactly two objects per call. *)
Theorem call_sequence_only_allocates h f args :
  (∀ l o, h !! l = Some o → call_sequence f args h !! l = Some o)
  ∧ size (call_sequence f args h) = size h + 2 * length args.
Proof.
  revert h. induction args as [|a args IH]; intros h.
  { split; [done|]. simpl. lia. }
  destruct (generate_crd_store f a h) as [P HP].
  destruct (IH (generate_crd f a h).1) as [IH1 IH2].
  simpl. split.
  - intros l o Hl. apply IH1. rewrite HP. by apply store_with_old.
  - rewrite IH2, HP, store_with_size. lia.
Qed.

Lemma call_sequence_only_allocates_witness :
  call_sequence {| defaults0 := VRef 1%positive |}
    [None; Some VNone; Some (VRef 2%positive)] {[1%positive := ODict ∅]}
  !! 1%positive = Some (ODict ∅).
Proof.
  apply (proj1 (call_sequence_only_allocates {[1%positive := ODict ∅]}
                  {| defaults0 := VRef 1%positive |}
                  [None; Some VNone; Some (VRef 2%positive)])).
  reflexivity.
Defined.
